(** * Digital Safe web interface: the serial line interpreter of [sketch.js]

    The page mirrors a keypad lock.  Two globals, [lockState] and [entered],
    are mutated by [handleLine], which is fed by the read loop started in
    [connectSerial].  This file embeds those two pieces of code together with
    the JavaScript string primitives they call, and the two drawing helpers
    [drawDots] and [drawPad], and states the properties of the interface
    over that embedding. *)

From Stdlib Require Import String Ascii.
From Stdlib Require Import List NArith ZArith Bool Lia.
From Stdlib Require QArith.
Import ListNotations.

Local Open Scope Z_scope.

(** ** JavaScript strings *)

Module JS.

(** A JavaScript string is a finite sequence of UTF-16 code units. *)
Definition jsstr : Type := list N.

(** String literals of the source, which are all ASCII. *)
Definition js (s : string) : jsstr := map N_of_ascii (list_ascii_of_string s).
Arguments js s%_string.

(** [s.length] *)
Definition strlen (s : jsstr) : Z := Z.of_nat (length s).

(** Truthiness of a string in a condition: non-empty. *)
Definition truthy (s : jsstr) : bool :=
  match s with
  | [] => false
  | _ :: _ => true
  end.

(** [a === b] on strings: same code units. *)
Fixpoint str_eqb (a b : jsstr) : bool :=
  match a, b with
  | [], [] => true
  | x :: a', y :: b' => (x =? y)%N && str_eqb a' b'
  | _, _ => false
  end.

(** [a <= b] on strings: lexicographic order on code units, a proper prefix
    being smaller. *)
Fixpoint str_leb (a b : jsstr) : bool :=
  match a, b with
  | [], _ => true
  | _ :: _, [] => false
  | x :: a', y :: b' =>
      if (x <? y)%N then true
      else if (y <? x)%N then false
      else str_leb a' b'
  end.

(** [a >= b] *)
Definition str_geb (a b : jsstr) : bool := str_leb b a.

(** [s.startsWith(p)] *)
Fixpoint startsWith (s p : jsstr) {struct p} : bool :=
  match p, s with
  | [], _ => true
  | _ :: _, [] => false
  | y :: p', x :: s' => (x =? y)%N && startsWith s' p'
  end.

(** [s.slice(start, end)]; [None] is an omitted [end].  Negative positions
    count from the end of the string, and all positions are clamped to
    [0 .. s.length]. *)
Definition clamp (len pos : Z) : Z :=
  if pos <? 0 then Z.max (len + pos) 0 else Z.min pos len.

Definition slice (s : jsstr) (start : Z) (end_ : option Z) : jsstr :=
  let len := strlen s in
  let from := clamp len start in
  let final := match end_ with
               | None => len
               | Some e => clamp len e
               end in
  firstn (Z.to_nat (Z.max (final - from) 0)) (skipn (Z.to_nat from) s).

(** [s.indexOf(p)]: position of the first occurrence, or -1. *)
Fixpoint indexOf_at (i : Z) (s p : jsstr) : Z :=
  if startsWith s p then i
  else match s with
       | [] => -1
       | _ :: s' => indexOf_at (i + 1) s' p
       end.

Definition indexOf (s p : jsstr) : Z := indexOf_at 0 s p.

(** White space and line terminators, the code units [trim] strips:
    TAB, LF, VT, FF, CR, SP, NBSP, U+1680, U+2000..U+200A, U+2028, U+2029,
    U+202F, U+205F, U+3000 and U+FEFF. *)
Definition isWhiteSpace (c : N) : bool :=
  ((c =? 9) || (c =? 10) || (c =? 11) || (c =? 12) || (c =? 13) || (c =? 32)
   || (c =? 160) || (c =? 5760) || ((8192 <=? c) && (c <=? 8202))
   || (c =? 8232) || (c =? 8233) || (c =? 8239) || (c =? 8287)
   || (c =? 12288) || (c =? 65279))%N.

Fixpoint trimStart (s : jsstr) : jsstr :=
  match s with
  | [] => []
  | c :: s' => if isWhiteSpace c then trimStart s' else s
  end.

Definition trimEnd (s : jsstr) : jsstr := rev (trimStart (rev s)).

(** [s.trim()] *)
Definition trim (s : jsstr) : jsstr := trimEnd (trimStart s).

(** [s.toUpperCase()].  The conversion is made code point by code point and
    does not look at the neighbours.  An ASCII code unit is a code point of
    its own: a small letter becomes the capital one and everything else is
    kept.  The Unicode case table that governs the other code points is not
    part of the repository: it is the parameter [upper_run], applied to each
    maximal run of code units from 128 on. *)
Definition upper_ascii (c : N) : N :=
  if ((97 <=? c) && (c <=? 122))%N then (c - 32)%N else c.

Section UpperCase.
Variable upper_run : jsstr -> jsstr.

Definition flush (run : jsstr) : jsstr :=
  match run with
  | [] => []
  | _ :: _ => upper_run run
  end.

Fixpoint toUpperCase_from (run s : jsstr) : jsstr :=
  match s with
  | [] => flush run
  | c :: s' =>
      if (c <? 128)%N
      then flush run ++ upper_ascii c :: toUpperCase_from [] s'
      else toUpperCase_from (run ++ [c]) s'
  end.

Definition toUpperCase (s : jsstr) : jsstr := toUpperCase_from [] s.
End UpperCase.

(** A fragment of the real case table, enough to evaluate examples: the
    Latin-1 letters, dotless i, long s and sharp s; other code units are
    kept. *)
Definition upper_latin (c : N) : jsstr :=
  (if (c =? 223) then [83; 83]
   else if (c =? 255) then [376]
   else if (c =? 305) then [73]
   else if (c =? 383) then [83]
   else if (224 <=? c) && (c <=? 254) && negb (c =? 247) then [c - 32]
   else [c])%N.

Definition upper_sample (run : jsstr) : jsstr := flat_map upper_latin run.

(** [s.repeat(count)] for an integer [count]: a negative one raises a
    RangeError, which is [None]. *)
Definition str_repeat (s : jsstr) (count : Z) : option jsstr :=
  if count <? 0 then None
  else Some (concat (repeat s (Z.to_nat count))).

(** [s.padEnd(maxLength, fillString)]: a string that is long enough, or an
    empty filler, gives [s] back; else the filler is repeated and cut to the
    missing length. *)
Definition padEnd (s : jsstr) (maxLength : Z) (fillString : jsstr) : jsstr :=
  let len := strlen s in
  if maxLength <=? len then s
  else if truthy fillString then
    let fillLen := Z.to_nat (maxLength - len) in
    s ++ firstn fillLen (concat (repeat fillString fillLen))
  else s.

End JS.

Import JS.

(** ** The page state and the line interpreter *)

(** The two globals of the sketch that [handleLine] writes. *)
Record State : Type := mkState {
  lockState : jsstr;
  entered : jsstr
}.

(** [let lockState = "LOCKED"; let entered = "";] *)
Definition initial : State :=
  {| lockState := js "LOCKED"; entered := js "" |}.

Section Interpreter.
Variable upper_run : jsstr -> jsstr.

(** [function handleLine(line)] *)
Definition handleLine (st : State) (line : jsstr) : State :=
  if startsWith line (js "KEY:") then
    let k := trim (slice line 4 None) in
    if str_geb k (js "0") && str_leb k (js "9") && (strlen (entered st) <? 4)
    then {| lockState := lockState st; entered := entered st ++ k |}
    else if str_eqb k (js "*") && negb (strlen (entered st) =? 0)
    then {| lockState := lockState st;
            entered := slice (entered st) 0 (Some (-1)) |}
    else st
  else if startsWith line (js "STATE:") then
    let s := toUpperCase upper_run (trim (slice line 6 None)) in
    if str_eqb s (js "UNLOCKED")
    then {| lockState := js "UNLOCKED"; entered := js "" |}
    else if str_eqb s (js "WRONG")
    then {| lockState := js "WRONG"; entered := js "" |}
    else if str_eqb s (js "IDLE")
    then {| lockState := js "LOCKED"; entered := entered st |}
    else st
  else st.

(** The interpreter run over a sequence of lines, first line first. *)
Definition handleLines (st : State) (lines : list jsstr) : State :=
  fold_left handleLine lines st.
End Interpreter.

(** States the page can be in: the initial one and those [handleLine]
    produces from them. *)
Inductive reachable (upper_run : jsstr -> jsstr) : State -> Prop :=
| reach_initial : reachable upper_run initial
| reach_line st line :
    reachable upper_run st -> reachable upper_run (handleLine upper_run st line).

(** ** The read loop of [connectSerial] *)

(** The argument of [buf.indexOf]: the one-unit string made of LF. *)
Definition newline : jsstr := [10%N].

Section ReadLoop.
(** The loop is stated over any line handler and any state it threads; the
    page runs it with [handleLine] on [State]. *)
Context {St : Type}.
Variable handle : St -> jsstr -> St.

(** [while ((nl = buf.indexOf(newline)) >= 0) { ... }]: one round per unit
    of fuel, [None] when the fuel runs out before the loop ends. *)
Fixpoint drain (fuel : nat) (buf : jsstr) (st : St) : option (jsstr * St) :=
  match fuel with
  | O => None
  | S fuel' =>
      let nl := indexOf buf newline in
      if 0 <=? nl then
        let line := trim (slice buf 0 (Some nl)) in
        let buf' := slice buf (nl + 1) None in
        drain fuel' buf' (if truthy line then handle st line else st)
      else Some (buf, st)
  end.

(** [while (true) { const { value, done } = await reader.read(); ... }] run
    on the chunks the reader delivers before it reports [done].  The inner
    loop is given one round more than the buffer has code units. *)
Fixpoint readLoop (chunks : list jsstr) (buf : jsstr) (st : St)
  : option (jsstr * St) :=
  match chunks with
  | [] => Some (buf, st)
  | value :: rest =>
      if truthy value then
        let buf1 := buf ++ value in
        match drain (S (length buf1)) buf1 st with
        | Some (buf2, st2) => readLoop rest buf2 st2
        | None => None
        end
      else readLoop rest buf st
  end.
End ReadLoop.

(** The handler that records the lines it is given, in order. *)
Definition record_line (seen : list jsstr) (line : jsstr) : list jsstr :=
  seen ++ [line].

(** ** The stream as the specification describes it *)

(** The text cut at its LF units: the segments that precede each LF, in
    order, and what follows the last LF. *)
Fixpoint segments (text : jsstr) : list jsstr * jsstr :=
  match text with
  | [] => ([], [])
  | c :: text' =>
      let (segs, rest) := segments text' in
      if (c =? 10)%N then ([] :: segs, rest)
      else match segs with
           | [] => ([], c :: rest)
           | seg :: segs' => ((c :: seg) :: segs', rest)
           end
  end.

(** The lines the interpreter is to receive: every segment trimmed, those
    that trim to the empty string left out. *)
Definition forwarded (text : jsstr) : list jsstr :=
  filter truthy (map trim (fst (segments text))).

(** What stays in the buffer. *)
Definition unfinished (text : jsstr) : jsstr := snd (segments text).

(** ** Shapes of lines and payloads *)

(** A decimal digit, '0'..'9'. *)
Definition isDigit (c : N) : bool := ((48 <=? c) && (c <=? 57))%N.

(** The same letter up to ASCII case: [c] is the capital [d] or its small
    form. *)
Definition same_letter (c d : N) : bool :=
  ((c =? d) || ((65 <=? d) && (d <=? 90) && (c =? d + 32)))%N.

(** [p] is a spelling of the word [w] in some mix of capital and small
    letters. *)
Fixpoint casing_of (p w : jsstr) : bool :=
  match p, w with
  | [], [] => true
  | c :: p', d :: w' => same_letter c d && casing_of p' w'
  | _, _ => false
  end.

(** The two branches of [handleLine], named for the proofs: what a "KEY:"
    line does once its payload [k] is cut out and trimmed, and what a
    "STATE:" line does once its payload [s] is trimmed and upper-cased. *)
Definition key_effect (st : State) (k : jsstr) : State :=
  if str_geb k (js "0") && str_leb k (js "9") && (strlen (entered st) <? 4)
  then {| lockState := lockState st; entered := entered st ++ k |}
  else if str_eqb k (js "*") && negb (strlen (entered st) =? 0)
  then {| lockState := lockState st;
          entered := slice (entered st) 0 (Some (-1)) |}
  else st.

Definition state_effect (st : State) (s : jsstr) : State :=
  if str_eqb s (js "UNLOCKED")
  then {| lockState := js "UNLOCKED"; entered := js "" |}
  else if str_eqb s (js "WRONG")
  then {| lockState := js "WRONG"; entered := js "" |}
  else if str_eqb s (js "IDLE")
  then {| lockState := js "LOCKED"; entered := entered st |}
  else st.

(** The range test of the "KEY:" branch, spelled out: the payload starts
    with one of '0'..'8', or is exactly "9". *)
Definition digit_led (k : jsstr) : bool :=
  match k with
  | [] => false
  | c :: rest =>
      ((48 <=? c) && (c <=? 56) || (c =? 57) && negb (truthy rest))%N
  end.

(** A line whose "KEY:" payload, once trimmed, is one code unit at most;
    any line without that prefix counts. *)
Definition short_key (line : jsstr) : bool :=
  if startsWith line (js "KEY:")
  then strlen (trim (slice line 4 None)) <=? 1
  else true.

(** A line as the device means it: not empty, free of LF, and with no white
    space at either end. *)
Definition clean_line (l : jsstr) : bool :=
  truthy l
  && negb (existsb (N.eqb 10) l)
  && negb (isWhiteSpace (hd 0%N l))
  && negb (isWhiteSpace (last l 0%N)).

(** A line on the wire: followed by LF, or by CR LF as [println] sends
    it. *)
Definition on_wire (record : jsstr * bool) : jsstr :=
  let (l, cr) := record in
  l ++ (if cr then [13%N] else []) ++ newline.

(** ** The renderer *)

(** The calls into the drawing library that [drawDots] and [drawPad] make,
    in the order they make them.  The sketch passes integers; on integers
    below 2^53 in size the number arithmetic of the source is exact integer
    arithmetic, [Z] here, and the one division, a halving, is kept as a
    rational.  A string argument read out of range is [undefined],
    [None]. *)
Inductive Call : Type :=
| Fill (color : jsstr)
| TextSize (size : Z)
| Rect (x y w h radius : Z)
| Text (str : option jsstr) (x y : QArith_base.Q).



(** The bullet U+2022 that stands for an entered unit. *)
Definition bullet : jsstr := [8226%N].

(** [const dots = bullet.repeat(entered.length).padEnd(4, " ")] *)
Definition dotsText (entered : jsstr) : option jsstr :=
  match str_repeat bullet (strlen entered) with
  | Some dots => Some (padEnd dots 4 (js " "))
  | None => None
  end.

(** [function drawDots(x, y)], reading the global [entered]. *)
Definition drawDots (entered : jsstr) (x y : QArith_base.Q)
  : option (list Call) :=
  match dotsText entered with
  | Some dots =>
      Some [Fill (js "#e9ecff"); TextSize 30;
            Text (Some dots) (QArith_base.Qplus x (QArith_base.inject_Z 30)) y]
  | None => None
  end.









(** ** Facts about the string primitives *)

Module JSFacts.

Lemma str_eqb_eq (a b : jsstr) : str_eqb a b = true <-> a = b.
Proof.
  revert b; induction a as [|x a IH]; intros [|y b]; simpl;
    try (split; [discriminate | discriminate]); try tauto.
  rewrite andb_true_iff, N.eqb_eq, IH.
  split; [intros [-> ->]; reflexivity | intros [= -> ->]; auto].
Qed.

Lemma str_eqb_refl (a : jsstr) : str_eqb a a = true.
Proof. apply str_eqb_eq; reflexivity. Qed.

Lemma startsWith_app (p t : jsstr) : startsWith (p ++ t) p = true.
Proof.
  induction p as [|y p IH]; simpl; [reflexivity|].
  rewrite N.eqb_refl; exact IH.
Qed.

Lemma startsWith_split (s p : jsstr) :
  startsWith s p = true -> s = p ++ skipn (length p) s.
Proof.
  revert s; induction p as [|y p IH]; intros s H; simpl in *; [reflexivity|].
  destruct s as [|x s]; [discriminate|].
  apply andb_true_iff in H as [Hx Hs].
  apply N.eqb_eq in Hx; subst x.
  simpl; f_equal; apply IH, Hs.
Qed.

Lemma strlen_nonneg (s : jsstr) : 0 <= strlen s.
Proof. unfold strlen; lia. Qed.

Lemma strlen_app (a b : jsstr) : strlen (a ++ b) = strlen a + strlen b.
Proof. unfold strlen; rewrite length_app; lia. Qed.

(** [s.slice(k)] for a position inside the string drops the first [k]
    units. *)
Lemma slice_from (s : jsstr) (k : Z) :
  0 <= k -> slice s k None = skipn (Z.to_nat k) s.
Proof.
  intros Hk; unfold slice, clamp, strlen.
  destruct (Z.ltb_spec k 0) as [?|_]; [lia|].
  destruct (Z.le_gt_cases k (Z.of_nat (length s))) as [Hle|Hgt].
  - rewrite Z.min_l by lia.
    apply firstn_all2; rewrite length_skipn; lia.
  - rewrite Z.min_r by lia.
    rewrite !skipn_all2 by lia. apply firstn_nil.
Qed.

(** [s.slice(0, n)] keeps the first [n] units. *)
Lemma slice_upto (s : jsstr) (n : Z) :
  0 <= n -> slice s 0 (Some n) = firstn (Z.to_nat n) s.
Proof.
  intros Hn; unfold slice, clamp, strlen; simpl skipn.
  destruct (Z.ltb_spec n 0) as [?|_]; [lia|].
  change (0 <? 0) with false; cbv iota.
  rewrite (Z.min_l 0) by lia. simpl skipn.
  destruct (Z.le_gt_cases n (Z.of_nat (length s))) as [Hle|Hgt].
  - rewrite Z.min_l by lia. f_equal; lia.
  - rewrite Z.min_r by lia.
    rewrite !firstn_all2 by lia. reflexivity.
Qed.

(** [s.slice(0, -1)] drops the last unit. *)
Lemma slice_drop_last (s : jsstr) (c : N) : slice (s ++ [c]) 0 (Some (-1)) = s.
Proof.
  unfold slice, clamp, strlen; rewrite length_app; simpl length.
  change (0 <? 0) with false; change (-1 <? 0) with true; cbv iota.
  rewrite (Z.min_l 0) by lia. simpl skipn.
  rewrite Z.max_l by lia.
  replace (Z.to_nat _) with (length s + 0)%nat by lia.
  rewrite firstn_app_2; simpl; apply app_nil_r.
Qed.

Lemma slice_drop_last_nil : slice [] 0 (Some (-1)) = [].
Proof. reflexivity. Qed.

(** Printable ASCII is not white space. *)
Lemma printable_not_space (c : N) :
  (33 <= c < 128)%N -> isWhiteSpace c = false.
Proof.
  intros Hc; unfold isWhiteSpace.
  repeat rewrite (proj2 (N.eqb_neq c _)) by lia.
  rewrite (proj2 (N.leb_gt 8192 c)) by lia.
  reflexivity.
Qed.

Lemma trimStart_id (s : jsstr) :
  Forall (fun c => isWhiteSpace c = false) s -> trimStart s = s.
Proof.
  intros H; destruct H as [|c s Hc _]; simpl; [reflexivity|].
  rewrite Hc; reflexivity.
Qed.

(** A string without white space is its own [trim]. *)
Lemma trim_id (s : jsstr) :
  Forall (fun c => isWhiteSpace c = false) s -> trim s = s.
Proof.
  intros H; unfold trim, trimEnd.
  rewrite (trimStart_id s H).
  rewrite trimStart_id by (apply Forall_rev; exact H).
  apply rev_involutive.
Qed.

Section UpperCaseFacts.
Variable upper_run : jsstr -> jsstr.

(** On a string of ASCII units [toUpperCase] never consults the Unicode
    table: it is [upper_ascii] unit by unit. *)
Lemma toUpperCase_ascii (s : jsstr) :
  Forall (fun c => (c < 128)%N) s ->
  toUpperCase upper_run s = map upper_ascii s.
Proof.
  unfold toUpperCase.
  induction 1 as [|c s Hc _ IH]; simpl; [reflexivity|].
  rewrite (proj2 (N.ltb_lt c 128) Hc); simpl.
  rewrite IH; reflexivity.
Qed.
End UpperCaseFacts.

End JSFacts.

Import JSFacts.

(** ** The branches of [handleLine] *)

Section InterpreterFacts.
Variable upper_run : jsstr -> jsstr.

Lemma handleLine_KEY (st : State) (payload : jsstr) :
  handleLine upper_run st (js "KEY:" ++ payload)
  = key_effect st (trim payload).
Proof.
  unfold handleLine.
  rewrite startsWith_app.
  rewrite slice_from by lia.
  reflexivity.
Qed.

Lemma handleLine_STATE (st : State) (payload : jsstr) :
  handleLine upper_run st (js "STATE:" ++ payload)
  = state_effect st (toUpperCase upper_run (trim payload)).
Proof.
  unfold handleLine.
  change (startsWith (js "STATE:" ++ payload) (js "KEY:")) with false.
  cbv iota.
  rewrite startsWith_app.
  rewrite slice_from by lia.
  reflexivity.
Qed.

Lemma handleLine_other (st : State) (line : jsstr) :
  startsWith line (js "KEY:") = false ->
  startsWith line (js "STATE:") = false ->
  handleLine upper_run st line = st.
Proof.
  intros HK HS; unfold handleLine; rewrite HK, HS; reflexivity.
Qed.

(** A line that starts with "KEY:" is that prefix followed by a payload,
    and likewise for "STATE:". *)
Lemma KEY_line_inv (line : jsstr) :
  startsWith line (js "KEY:") = true ->
  exists payload, line = js "KEY:" ++ payload.
Proof.
  intros H; eexists; apply (startsWith_split _ _ H).
Qed.

Lemma STATE_line_inv (line : jsstr) :
  startsWith line (js "STATE:") = true ->
  exists payload, line = js "STATE:" ++ payload.
Proof.
  intros H; eexists; apply (startsWith_split _ _ H).
Qed.

(** On a payload of one code unit, the range test of [handleLine] is the
    digit test. *)
Lemma digit_test_single (c : N) :
  str_geb [c] (js "0") && str_leb [c] (js "9") = isDigit c.
Proof.
  unfold str_geb, isDigit; simpl.
  destruct (N.ltb_spec 48 c), (N.ltb_spec c 48), (N.ltb_spec c 57),
    (N.ltb_spec 57 c), (N.leb_spec 48 c), (N.leb_spec c 57);
    simpl; try reflexivity; lia.
Qed.

Lemma isDigit_bounds (c : N) : isDigit c = true <-> (48 <= c <= 57)%N.
Proof.
  unfold isDigit; rewrite andb_true_iff, !N.leb_le; tauto.
Qed.

Lemma trim_digit (d : N) : isDigit d = true -> trim [d] = [d].
Proof.
  intros Hd; apply isDigit_bounds in Hd.
  apply trim_id; repeat constructor.
  apply printable_not_space; lia.
Qed.

Lemma key_effect_digit (st : State) (d : N) :
  isDigit d = true ->
  key_effect st [d]
  = if strlen (entered st) <? 4
    then {| lockState := lockState st; entered := entered st ++ [d] |}
    else st.
Proof.
  intros Hd; unfold key_effect.
  rewrite digit_test_single, Hd; simpl andb.
  destruct (strlen (entered st) <? 4); [reflexivity|].
  apply isDigit_bounds in Hd.
  simpl str_eqb.
  rewrite (proj2 (N.eqb_neq d 42)) by lia.
  reflexivity.
Qed.

Lemma key_effect_star (st : State) :
  key_effect st (js "*")
  = if strlen (entered st) =? 0 then st
    else {| lockState := lockState st;
            entered := slice (entered st) 0 (Some (-1)) |}.
Proof.
  unfold key_effect.
  change (str_geb (js "*") (js "0")) with false.
  change (str_eqb (js "*") (js "*")) with true.
  simpl andb.
  destruct (strlen (entered st) =? 0); reflexivity.
Qed.

Lemma strlen_zero (s : jsstr) : (strlen s =? 0) = negb (truthy s).
Proof. destruct s; reflexivity. Qed.
End InterpreterFacts.

(** ** Properties of the line interpreter *)

Section KeyLines.
Variable upper_run : jsstr -> jsstr.

(** C2.  A line "KEY:d" with [d] a decimal digit, received while fewer
    than four units are entered, appends [d]: the length of [entered]
    grows by one, its new last unit is [d], the units before it are the
    old ones, and [lockState] is kept. *)
Theorem key_digit_appends (st : State) (d : N) :
  isDigit d = true ->
  strlen (entered st) < 4 ->
  let st' := handleLine upper_run st (js "KEY:" ++ [d]) in
  strlen (entered st') = strlen (entered st) + 1
  /\ nth_error (entered st') (length (entered st)) = Some d
  /\ firstn (length (entered st)) (entered st') = entered st
  /\ entered st' = entered st ++ [d]
  /\ lockState st' = lockState st.
Proof.
  intros Hd Hlen st'; subst st'.
  rewrite handleLine_KEY, (trim_digit d Hd), (key_effect_digit st d Hd).
  rewrite (proj2 (Z.ltb_lt _ _) Hlen); simpl.
  repeat split.
  - rewrite strlen_app; reflexivity.
  - rewrite nth_error_app2 by apply Nat.le_refl.
    rewrite Nat.sub_diag; reflexivity.
  - rewrite firstn_app, Nat.sub_diag, firstn_all; simpl.
    apply app_nil_r.
Qed.

(** C3.  A line "KEY:d" with [d] a decimal digit, received while exactly
    four units are entered, changes neither [lockState] nor [entered]; and
    KEY:1, KEY:2, KEY:3, KEY:4, KEY:5 from the empty buffer leave
    "1234". *)
Theorem key_digit_full_buffer :
  (forall (st : State) (d : N),
      isDigit d = true ->
      strlen (entered st) = 4 ->
      handleLine upper_run st (js "KEY:" ++ [d]) = st)
  /\ entered (handleLines upper_run initial
                [js "KEY:1"; js "KEY:2"; js "KEY:3"; js "KEY:4"; js "KEY:5"])
     = js "1234".
Proof.
  split; [|reflexivity].
  intros st d Hd Hlen.
  rewrite handleLine_KEY, (trim_digit d Hd), (key_effect_digit st d Hd).
  rewrite Hlen; reflexivity.
Qed.

(** C4.  The line "KEY:*" removes exactly the last unit of a non-empty
    [entered] and changes nothing when [entered] is empty; [lockState] is
    kept either way; and KEY:7, KEY:*, KEY:* from the empty buffer leave
    the empty string. *)
Theorem key_star_deletes :
  (forall st : State,
      entered st <> [] ->
      let st' := handleLine upper_run st (js "KEY:*") in
      (exists c, entered st = entered st' ++ [c])
      /\ lockState st' = lockState st)
  /\ (forall st : State,
         entered st = [] -> handleLine upper_run st (js "KEY:*") = st)
  /\ entered (handleLines upper_run initial
                [js "KEY:7"; js "KEY:*"; js "KEY:*"]) = js "".
Proof.
  split; [|split; [|reflexivity]].
  - intros st Hne st'; subst st'.
    change (js "KEY:*") with (js "KEY:" ++ js "*").
    rewrite handleLine_KEY.
    change (trim (js "*")) with (js "*").
    rewrite key_effect_star, strlen_zero.
    destruct (exists_last Hne) as (s & c & Hs).
    rewrite Hs.
    replace (truthy (s ++ [c])) with true by (destruct s; reflexivity).
    cbn [negb entered lockState]; rewrite slice_drop_last.
    split; [exists c; reflexivity | reflexivity].
  - intros st Hnil.
    change (js "KEY:*") with (js "KEY:" ++ js "*").
    rewrite handleLine_KEY.
    change (trim (js "*")) with (js "*").
    rewrite key_effect_star, Hnil; reflexivity.
Qed.
End KeyLines.

Section StateLines.
Variable upper_run : jsstr -> jsstr.

(** C5.  Whatever the state, "STATE:UNLOCKED" sets [lockState] to
    "UNLOCKED" and "STATE:WRONG" sets it to "WRONG", and both empty
    [entered]. *)
Theorem state_unlocked_wrong_clear (st : State) :
  handleLine upper_run st (js "STATE:UNLOCKED")
  = {| lockState := js "UNLOCKED"; entered := js "" |}
  /\ handleLine upper_run st (js "STATE:WRONG")
     = {| lockState := js "WRONG"; entered := js "" |}.
Proof. split; reflexivity. Qed.

(** C6.  Whatever the state, "STATE:IDLE" sets [lockState] to "LOCKED" and
    leaves [entered] as it was. *)
Theorem state_idle_keeps_entered (st : State) :
  let st' := handleLine upper_run st (js "STATE:IDLE") in
  lockState st' = js "LOCKED" /\ entered st' = entered st.
Proof. split; reflexivity. Qed.

Lemma key_effect_lockState (st : State) (k : jsstr) :
  lockState (key_effect st k) = lockState st.
Proof.
  unfold key_effect.
  destruct (_ && _ && _); [reflexivity|].
  destruct (_ && _); reflexivity.
Qed.

Lemma state_effect_entered (st : State) (s : jsstr) :
  entered (state_effect st s) = [] \/ entered (state_effect st s) = entered st.
Proof.
  unfold state_effect.
  destruct (str_eqb s (js "UNLOCKED")); [left; reflexivity|].
  destruct (str_eqb s (js "WRONG")); [left; reflexivity|].
  destruct (str_eqb s (js "IDLE")); right; reflexivity.
Qed.

(** C10.  A line that starts with "KEY:" keeps [lockState]; a line that
    starts with "STATE:" either empties [entered] or keeps it, so never
    makes it longer. *)
Theorem key_state_frames (st : State) (line : jsstr) :
  let st' := handleLine upper_run st line in
  (startsWith line (js "KEY:") = true -> lockState st' = lockState st)
  /\ (startsWith line (js "STATE:") = true ->
      strlen (entered st') <= strlen (entered st)
      /\ (entered st' = [] \/ entered st' = entered st)).
Proof.
  intros st'; subst st'; split; intros H.
  - destruct (KEY_line_inv line H) as [payload ->].
    rewrite handleLine_KEY; apply key_effect_lockState.
  - destruct (STATE_line_inv line H) as [payload ->].
    rewrite handleLine_STATE.
    destruct (state_effect_entered st (toUpperCase upper_run (trim payload)))
      as [E|E]; rewrite E; split; auto using strlen_nonneg, Z.le_refl.
Qed.
End StateLines.

Section Casing.
Variable upper_run : jsstr -> jsstr.

(** A spelling of a word of capital letters is ASCII without white space,
    and [upper_ascii] turns it into the word. *)
Lemma casing_of_capitals (p w : jsstr) :
  Forall (fun d => (65 <= d <= 90)%N) w ->
  casing_of p w = true ->
  Forall (fun c => (c < 128)%N) p
  /\ Forall (fun c => isWhiteSpace c = false) p
  /\ map upper_ascii p = w.
Proof.
  intros Hw; revert p.
  induction Hw as [|d w Hd _ IH]; intros [|c p] H; simpl in H;
    try discriminate; [repeat constructor|].
  apply andb_true_iff in H as [Hc Hp].
  destruct (IH p Hp) as (IH1 & IH2 & IH3).
  assert (Hcd : c = d \/ c = (d + 32)%N).
  { unfold same_letter in Hc.
    apply orb_true_iff in Hc as [Hc|Hc]; [left; apply N.eqb_eq, Hc|].
    apply andb_true_iff in Hc as [_ Hc]; right; apply N.eqb_eq, Hc. }
  repeat split.
  - constructor; [lia | exact IH1].
  - constructor; [apply printable_not_space; lia | exact IH2].
  - simpl; f_equal; [|exact IH3].
    unfold upper_ascii.
    destruct (N.leb_spec 97 c), (N.leb_spec c 122); simpl; lia.
Qed.

Lemma capitals_UNLOCKED_WRONG_IDLE (w : jsstr) :
  In w [js "UNLOCKED"; js "WRONG"; js "IDLE"] ->
  Forall (fun d => (65 <= d <= 90)%N) w.
Proof.
  intros [<-|[<-|[<-|[]]]]; repeat constructor; discriminate.
Qed.

Lemma casing_of_refl (w : jsstr) : casing_of w w = true.
Proof.
  induction w as [|d w IH]; simpl; [reflexivity|].
  unfold same_letter; rewrite N.eqb_refl, IH; reflexivity.
Qed.

(** C8.  The payload of a "STATE:" line is matched without regard to case:
    any spelling of UNLOCKED, WRONG or IDLE in capital and small letters
    acts as the word in capitals does; "STATE:wrong" gives [lockState]
    "WRONG". *)
Theorem state_payload_any_case :
  (forall (st : State) (p w : jsstr),
      In w [js "UNLOCKED"; js "WRONG"; js "IDLE"] ->
      casing_of p w = true ->
      handleLine upper_run st (js "STATE:" ++ p)
      = handleLine upper_run st (js "STATE:" ++ w))
  /\ (forall st : State,
         lockState (handleLine upper_run st (js "STATE:wrong")) = js "WRONG").
Proof.
  split; [|reflexivity].
  intros st p w Hw Hp.
  pose proof (capitals_UNLOCKED_WRONG_IDLE w Hw) as Hcap.
  destruct (casing_of_capitals p w Hcap Hp) as (A1 & S1 & U1).
  destruct (casing_of_capitals w w Hcap (casing_of_refl w)) as (A2 & S2 & U2).
  rewrite !handleLine_STATE.
  rewrite (trim_id p S1), (trim_id w S2).
  rewrite (toUpperCase_ascii upper_run p A1), (toUpperCase_ascii upper_run w A2).
  rewrite U1, U2; reflexivity.
Qed.
End Casing.

Section Unrecognised.
Variable upper_run : jsstr -> jsstr.

Lemma strlen_slice_le (s : jsstr) (a : Z) (b : option Z) :
  strlen (slice s a b) <= strlen s.
Proof.
  unfold slice, strlen.
  rewrite length_firstn, length_skipn; lia.
Qed.

(** Lines with neither prefix are ignored. *)
Lemma other_prefix_ignored (st : State) (line : jsstr) :
  startsWith line (js "KEY:") = false ->
  startsWith line (js "STATE:") = false ->
  handleLine upper_run st line = st.
Proof. apply handleLine_other. Qed.

(** A "STATE:" line whose upper-cased payload is none of the three words
    is ignored. *)
Lemma unknown_state_ignored (st : State) (payload : jsstr) :
  ~ In (toUpperCase upper_run (trim payload))
       [js "UNLOCKED"; js "WRONG"; js "IDLE"] ->
  handleLine upper_run st (js "STATE:" ++ payload) = st.
Proof.
  intros Hnot; rewrite handleLine_STATE; unfold state_effect.
  set (s := toUpperCase upper_run (trim payload)) in *.
  destruct (str_eqb s (js "UNLOCKED")) eqn:E1;
    [apply str_eqb_eq in E1; exfalso; apply Hnot; simpl; auto|].
  destruct (str_eqb s (js "WRONG")) eqn:E2;
    [apply str_eqb_eq in E2; exfalso; apply Hnot; simpl; auto|].
  destruct (str_eqb s (js "IDLE")) eqn:E3;
    [apply str_eqb_eq in E3; exfalso; apply Hnot; simpl; auto|].
  reflexivity.
Qed.

(** A "KEY:" line whose payload trims to one code unit that is neither a
    digit nor the star, or to nothing at all, is ignored. *)
Lemma unknown_single_key_ignored (st : State) (payload : jsstr) (c : N) :
  trim payload = [c] -> isDigit c = false -> c <> 42%N ->
  handleLine upper_run st (js "KEY:" ++ payload) = st.
Proof.
  intros Hk Hd Hc; rewrite handleLine_KEY, Hk; unfold key_effect.
  rewrite digit_test_single, Hd; simpl.
  rewrite (proj2 (N.eqb_neq c 42) Hc); reflexivity.
Qed.

Lemma empty_key_ignored (st : State) (payload : jsstr) :
  trim payload = [] ->
  handleLine upper_run st (js "KEY:" ++ payload) = st.
Proof.
  intros Hk; rewrite handleLine_KEY, Hk; reflexivity.
Qed.

(** With payloads of at most one code unit, four is a bound on the length
    of [entered] that every line preserves. *)
Lemma entered_bound_single_payload (st : State) (line : jsstr) :
  (forall payload, line = js "KEY:" ++ payload -> strlen (trim payload) <= 1) ->
  strlen (entered st) <= 4 ->
  strlen (entered (handleLine upper_run st line)) <= 4.
Proof.
  intros Hone Hst.
  destruct (startsWith line (js "KEY:")) eqn:HK.
  - destruct (KEY_line_inv line HK) as [payload ->].
    specialize (Hone payload eq_refl).
    rewrite handleLine_KEY; unfold key_effect.
    destruct (Z.ltb_spec (strlen (entered st)) 4) as [Hlt|Hge].
    + destruct (_ && _); simpl.
      * rewrite strlen_app; lia.
      * destruct (_ && _); simpl; [|exact Hst].
        pose proof (strlen_slice_le (entered st) 0 (Some (-1))); lia.
    + rewrite andb_false_r.
      destruct (_ && _); simpl; [|exact Hst].
      pose proof (strlen_slice_le (entered st) 0 (Some (-1))); lia.
  - destruct (startsWith line (js "STATE:")) eqn:HS.
    + destruct (STATE_line_inv line HS) as [payload ->].
      rewrite handleLine_STATE.
      destruct (state_effect_entered st (toUpperCase upper_run (trim payload)))
        as [E|E]; rewrite E; [discriminate | exact Hst].
    + rewrite (handleLine_other upper_run st line HK HS); exact Hst.
Qed.

(** C1, on the code.  The range test [k >= "0" && k <= "9"] compares
    strings, so it lets through a payload of several units that starts
    with a digit, and [entered += k] then appends all of it: the line
    "KEY:12345", which the read loop forwards as it is, takes the initial
    state to a reachable state with five units entered. *)
Theorem long_key_exceeds_four :
  let st := handleLine upper_run initial (js "KEY:12345") in
  reachable upper_run st
  /\ entered st = js "12345"
  /\ 4 < strlen (entered st)
  /\ readLoop (handleLine upper_run) [js "KEY:12345" ++ newline] [] initial
     = Some ([], st).
Proof.
  intros st; repeat split.
  apply reach_line, reach_initial.
Qed.

(** C7, on the code.  For the same reason the line "KEY:12", whose payload
    is neither a decimal digit nor the star, is not ignored: both units are
    appended to [entered]. *)
Theorem long_key_not_ignored :
  let st := handleLine upper_run initial (js "KEY:12") in
  startsWith (js "KEY:12") (js "KEY:") = true
  /\ trim (slice (js "KEY:12") 4 None) = js "12"
  /\ strlen (js "12") = 2
  /\ str_eqb (js "12") (js "*") = false
  /\ entered initial = js ""
  /\ entered st = js "12".
Proof.
  intros st; repeat split.
Qed.
End Unrecognised.

(** ** The read loop *)

Section Segments.

(** [segments] cuts the text where the words say: the text is its segments,
    each followed by LF, then the unfinished rest, and LF occurs in none of
    them. *)
Lemma segments_join (text : jsstr) :
  text = flat_map (fun seg => seg ++ newline) (fst (segments text))
         ++ snd (segments text)
  /\ Forall (fun seg => ~ In 10%N seg) (fst (segments text))
  /\ ~ In 10%N (snd (segments text)).
Proof.
  induction text as [|c text (IH1 & IH2 & IH3)]; simpl.
  - repeat split; [constructor | intros []].
  - destruct (segments text) as [segs rest]; simpl in *.
    destruct (N.eqb_spec c 10) as [->|Hc]; simpl.
    + split; [f_equal; exact IH1|].
      split; [constructor; [intros [] | exact IH2] | exact IH3].
    + destruct segs as [|seg segs]; simpl in *.
      * split; [f_equal; exact IH1|].
        split; [constructor|].
        intros [E|E]; [exact (Hc E) | exact (IH3 E)].
      * inversion IH2 as [|? ? Hseg Hsegs]; subst.
        split; [f_equal; assumption|].
        split; [|exact IH3].
        constructor; [|exact Hsegs].
        intros [E|E]; [exact (Hc E) | exact (Hseg E)].
Qed.

(** Where [indexOf] finds the first LF, against [segments]. *)
Lemma indexOf_newline (s : jsstr) (i : Z) :
  match segments s with
  | ([], rest) => indexOf_at i s newline = -1 /\ rest = s
  | (seg :: segs, rest) =>
      exists post, s = seg ++ 10%N :: post
                   /\ indexOf_at i s newline = i + strlen seg
                   /\ segments post = (segs, rest)
  end.
Proof.
  revert i; induction s as [|c s IH]; intros i; simpl; [split; reflexivity|].
  specialize (IH (i + 1)).
  destruct (segments s) as [segs rest] eqn:Hsegs.
  destruct (N.eqb_spec c 10) as [->|Hc]; simpl.
  - exists s; split; [reflexivity|].
    split; [unfold strlen; simpl; lia | exact Hsegs].
  - destruct segs as [|seg segs].
    + destruct IH as [IH ->]; split; [exact IH | reflexivity].
    + destruct IH as (post & -> & IH & Hpost).
      exists post; split; [reflexivity|].
      split; [|exact Hpost].
      rewrite IH; unfold strlen; simpl length; lia.
Qed.

Lemma segments_app (a b : jsstr) :
  segments (a ++ b)
  = (fst (segments a) ++ fst (segments (snd (segments a) ++ b)),
     snd (segments (snd (segments a) ++ b))).
Proof.
  induction a as [|c a IH]; simpl.
  - destruct (segments b); reflexivity.
  - rewrite IH; clear IH.
    destruct (segments a) as [segs rest]; simpl.
    destruct (N.eqb_spec c 10) as [->|Hc]; simpl; [reflexivity|].
    destruct segs as [|seg segs]; simpl.
    + rewrite (proj2 (N.eqb_neq c 10) Hc).
      destruct (segments (rest ++ b)) as [[|seg' segs'] rest']; reflexivity.
    + reflexivity.
Qed.

Lemma segments_unfinished (text : jsstr) :
  segments (unfinished text) = ([], unfinished text).
Proof.
  unfold unfinished.
  induction text as [|c text IH]; simpl; [reflexivity|].
  destruct (segments text) as [segs rest]; simpl in *.
  destruct (N.eqb_spec c 10) as [->|Hc]; simpl; [exact IH|].
  destruct segs as [|seg segs]; simpl; [|exact IH].
  rewrite IH, (proj2 (N.eqb_neq c 10) Hc); reflexivity.
Qed.

Lemma forwarded_app (a b : jsstr) :
  forwarded (a ++ b) = forwarded a ++ forwarded (unfinished a ++ b).
Proof.
  unfold forwarded, unfinished.
  rewrite segments_app; simpl.
  rewrite map_app, filter_app; reflexivity.
Qed.

Lemma unfinished_app (a b : jsstr) :
  unfinished (a ++ b) = unfinished (unfinished a ++ b).
Proof.
  unfold unfinished; rewrite segments_app; reflexivity.
Qed.
End Segments.

Section ReadLoopFacts.
Context {St : Type}.
Variable handle : St -> jsstr -> St.

(** One round of the inner loop, as the source has it. *)
Lemma drain_round (fuel : nat) (buf : jsstr) (st : St) :
  drain handle (S fuel) buf st
  = if 0 <=? indexOf buf newline
    then drain handle fuel (slice buf (indexOf buf newline + 1) None)
           (if truthy (trim (slice buf 0 (Some (indexOf buf newline))))
            then handle st (trim (slice buf 0 (Some (indexOf buf newline))))
            else st)
    else Some (buf, st).
Proof. reflexivity. Qed.

(** The cuts the inner loop makes around the first LF. *)
Lemma slice_before (seg post : jsstr) :
  slice (seg ++ 10%N :: post) 0 (Some (0 + strlen seg)) = seg.
Proof.
  rewrite slice_upto by (pose proof (strlen_nonneg seg); lia).
  unfold strlen; rewrite Z.add_0_l, Nat2Z.id.
  rewrite <- (Nat.add_0_r (length seg)), firstn_app_2; simpl.
  apply app_nil_r.
Qed.

Lemma slice_after (seg post : jsstr) :
  slice (seg ++ 10%N :: post) (0 + strlen seg + 1) None = post.
Proof.
  rewrite slice_from by (pose proof (strlen_nonneg seg); lia).
  unfold strlen.
  replace (Z.to_nat _) with (length seg + 1)%nat by lia.
  rewrite skipn_app, skipn_all2 by lia.
  replace (length seg + 1 - length seg)%nat with 1%nat by lia.
  reflexivity.
Qed.

(** With more rounds than the buffer has code units, the inner loop ends:
    it has handed over the trimmed non-empty segments of the buffer and
    left the unfinished rest. *)
Lemma drain_enough (fuel : nat) :
  forall (buf : jsstr) (st : St),
    (length buf < fuel)%nat ->
    drain handle fuel buf st
    = Some (unfinished buf, fold_left handle (forwarded buf) st).
Proof.
  induction fuel as [|fuel IH]; intros buf st Hfuel; [lia|].
  rewrite drain_round.
  pose proof (indexOf_newline buf 0) as Hnl.
  unfold forwarded, unfinished, indexOf.
  destruct (segments buf) as [[|seg segs] rest].
  - destruct Hnl as [-> ->]; reflexivity.
  - destruct Hnl as (post & -> & -> & Hpost).
    rewrite slice_before, slice_after.
    rewrite (proj2 (Z.leb_le 0 _))
      by (pose proof (strlen_nonneg seg); lia).
    rewrite IH by (rewrite length_app in Hfuel; simpl in Hfuel; lia).
    unfold forwarded, unfinished; rewrite Hpost; simpl.
    destruct (truthy (trim seg)); reflexivity.
Qed.

(** The read loop from a buffer that holds no LF. *)
Lemma readLoop_from (chunks : list jsstr) :
  forall (buf : jsstr) (st : St),
    segments buf = ([], buf) ->
    readLoop handle chunks buf st
    = Some (unfinished (buf ++ concat chunks),
            fold_left handle (forwarded (buf ++ concat chunks)) st).
Proof.
  induction chunks as [|value rest IH]; intros buf st Hbuf;
    cbn [readLoop concat].
  - rewrite app_nil_r; unfold forwarded, unfinished; rewrite Hbuf.
    reflexivity.
  - destruct value as [|c value]; cbn [truthy].
    + exact (IH buf st Hbuf).
    + rewrite drain_enough by apply Nat.lt_succ_diag_r.
      rewrite IH by apply segments_unfinished.
      rewrite app_assoc.
      rewrite (forwarded_app (buf ++ c :: value)), fold_left_app.
      rewrite (unfinished_app (buf ++ c :: value)).
      reflexivity.
Qed.
End ReadLoopFacts.

(** C9.  For every finite sequence of chunks, the read loop ends, and what it
    has handed to the line handler is, in order, the trimmed segments that
    precede each LF of the concatenated chunks, those that trim to nothing
    left out; what follows the last LF is still in the buffer and was not
    handed over.  This holds for any handler, in particular for the one that
    records the lines and for [handleLine]. *)
Theorem read_loop_forwards_lines (chunks : list jsstr) :
  (forall (St : Type) (handle : St -> jsstr -> St) (st : St),
      readLoop handle chunks [] st
      = Some (unfinished (concat chunks),
              fold_left handle (forwarded (concat chunks)) st))
  /\ readLoop record_line chunks [] []
     = Some (unfinished (concat chunks), forwarded (concat chunks))
  /\ (forall (upper_run : jsstr -> jsstr) (st : State),
         readLoop (handleLine upper_run) chunks [] st
         = Some (unfinished (concat chunks),
                 handleLines upper_run st (forwarded (concat chunks)))).
Proof.
  assert (G : forall (St : Type) (handle : St -> jsstr -> St) (st : St),
             readLoop handle chunks [] st
             = Some (unfinished (concat chunks),
                     fold_left handle (forwarded (concat chunks)) st)).
  { intros St handle st. apply (readLoop_from handle chunks [] st). reflexivity. }
  split; [exact G|]. split.
  - rewrite G; f_equal; f_equal.
    generalize (forwarded (concat chunks)); intros l.
    change l with ([] ++ l) at 2.
    generalize (@nil jsstr) as acc.
    induction l as [|x l IH]; intros acc; simpl.
    + symmetry; apply app_nil_r.
    + rewrite IH; unfold record_line; rewrite <- app_assoc; reflexivity.
  - intros upper_run st; apply G.
Qed.

(** ** The theorems above at concrete inputs *)

(** "KEY:7" received with "12" entered. *)
Lemma key_digit_appends_witness :
  let st := {| lockState := js "WRONG"; entered := js "12" |} in
  isDigit 55 = true
  /\ strlen (entered st) < 4
  /\ entered (handleLine upper_sample st (js "KEY:7")) = js "127".
Proof.
  intros st.
  split; [reflexivity|]. split; [reflexivity|].
  apply (key_digit_appends upper_sample st 55%N); reflexivity.
Defined.

(** "KEY:5" received with "1234" entered. *)
Lemma key_digit_full_buffer_witness :
  let st := {| lockState := js "LOCKED"; entered := js "1234" |} in
  isDigit 53 = true
  /\ strlen (entered st) = 4
  /\ handleLine upper_sample st (js "KEY:5") = st.
Proof.
  intros st.
  split; [reflexivity|]. split; [reflexivity|].
  apply (proj1 (key_digit_full_buffer upper_sample) st 53%N); reflexivity.
Defined.

(** "KEY:*" received with "7" entered, and with nothing entered. *)
Lemma key_star_deletes_witness :
  let st := {| lockState := js "LOCKED"; entered := js "7" |} in
  entered st <> []
  /\ (exists c, entered st = entered (handleLine upper_sample st (js "KEY:*")) ++ [c])
  /\ entered initial = []
  /\ handleLine upper_sample initial (js "KEY:*") = initial.
Proof.
  intros st.
  assert (Hne : entered st <> []) by discriminate.
  split; [exact Hne|].
  split; [apply (proj1 (key_star_deletes upper_sample) st Hne)|].
  split; [reflexivity|].
  apply (proj1 (proj2 (key_star_deletes upper_sample)) initial); reflexivity.
Defined.

(** "STATE:wRoNg" against "STATE:WRONG". *)
Lemma state_payload_any_case_witness :
  In (js "WRONG") [js "UNLOCKED"; js "WRONG"; js "IDLE"]
  /\ casing_of (js "wRoNg") (js "WRONG") = true
  /\ handleLine upper_sample initial (js "STATE:wRoNg")
     = handleLine upper_sample initial (js "STATE:WRONG").
Proof.
  assert (Hw : In (js "WRONG") [js "UNLOCKED"; js "WRONG"; js "IDLE"])
    by (right; left; reflexivity).
  split; [exact Hw|]. split; [reflexivity|].
  apply (proj1 (state_payload_any_case upper_sample) initial
           (js "wRoNg") (js "WRONG") Hw); reflexivity.
Defined.

(** "KEY:5" in state WRONG, and "STATE:idle" with "12" entered. *)
Lemma key_state_frames_witness :
  let st := {| lockState := js "WRONG"; entered := js "12" |} in
  startsWith (js "KEY:5") (js "KEY:") = true
  /\ lockState (handleLine upper_sample st (js "KEY:5")) = lockState st
  /\ startsWith (js "STATE:idle") (js "STATE:") = true
  /\ strlen (entered (handleLine upper_sample st (js "STATE:idle")))
     <= strlen (entered st).
Proof.
  intros st.
  split; [reflexivity|].
  split; [apply (proj1 (key_state_frames upper_sample st (js "KEY:5"))); reflexivity|].
  split; [reflexivity|].
  apply (proj2 (key_state_frames upper_sample st (js "STATE:idle"))); reflexivity.
Defined.


(** ** Further properties of the line interpreter *)

Section InterpreterMore.
Variable upper_run : jsstr -> jsstr.

Lemma state_effect_lockState (st : State) (s : jsstr) :
  lockState (state_effect st s) = lockState st
  \/ In (lockState (state_effect st s)) [js "LOCKED"; js "UNLOCKED"; js "WRONG"].
Proof.
  unfold state_effect.
  destruct (str_eqb s (js "UNLOCKED")); [right; simpl; auto|].
  destruct (str_eqb s (js "WRONG")); [right; simpl; auto|].
  destruct (str_eqb s (js "IDLE")); [right; simpl; auto|].
  left; reflexivity.
Qed.

(** Every line falls under one of the three cases of [handleLine]. *)
Lemma handleLine_cases (st : State) (line : jsstr) :
  (exists payload, line = js "KEY:" ++ payload
                   /\ handleLine upper_run st line = key_effect st (trim payload))
  \/ (exists payload, line = js "STATE:" ++ payload
                      /\ startsWith line (js "KEY:") = false
                      /\ handleLine upper_run st line
                         = state_effect st (toUpperCase upper_run (trim payload)))
  \/ (startsWith line (js "KEY:") = false
      /\ startsWith line (js "STATE:") = false
      /\ handleLine upper_run st line = st).
Proof.
  destruct (startsWith line (js "KEY:")) eqn:HK.
  - left. destruct (KEY_line_inv line HK) as [payload ->].
    exists payload; split; [reflexivity | apply handleLine_KEY].
  - destruct (startsWith line (js "STATE:")) eqn:HS.
    + right; left. destruct (STATE_line_inv line HS) as [payload ->].
      exists payload; repeat split; apply handleLine_STATE.
    + right; right; repeat split.
      apply (handleLine_other upper_run st line HK HS).
Qed.

(** X1.  In every state the page can reach, [lockState] is one of "LOCKED",
    "UNLOCKED" and "WRONG": no line makes it anything else, "IDLE"
    included. *)
Theorem lockState_one_of_three (st : State) :
  reachable upper_run st ->
  In (lockState st) [js "LOCKED"; js "UNLOCKED"; js "WRONG"].
Proof.
  induction 1 as [|st line _ IH]; [left; reflexivity|].
  destruct (handleLine_cases st line)
    as [(p & _ & ->)|[(p & _ & _ & ->)|(_ & _ & ->)]].
  - rewrite key_effect_lockState; exact IH.
  - destruct (state_effect_lockState st (toUpperCase upper_run (trim p)))
      as [E|E]; [rewrite E; exact IH | exact E].
  - exact IH.
Qed.

(** The range test of the source is [digit_led]. *)
Lemma range_test_digit_led (k : jsstr) :
  str_geb k (js "0") && str_leb k (js "9") = digit_led k.
Proof.
  destruct k as [|c rest]; [reflexivity|].
  unfold str_geb, digit_led; simpl.
  destruct (N.ltb_spec 48 c), (N.ltb_spec c 48), (N.ltb_spec c 57),
    (N.ltb_spec 57 c), (N.leb_spec 48 c), (N.leb_spec c 56),
    (N.eqb_spec c 57); simpl; try reflexivity; try lia;
    destruct rest; reflexivity.
Qed.

(** X2.  What a "KEY:" line does, by its trimmed payload [k].  If [k]
    starts with one of '0'..'8', or is "9", and fewer than four units are
    entered, all of [k] is appended, however long it is.  If [k] is not of
    that form, or four units or more are entered, and [k] is not "*", the
    state is unchanged. *)
Theorem key_line_effect (st : State) (payload : jsstr) :
  let k := trim payload in
  let st' := handleLine upper_run st (js "KEY:" ++ payload) in
  (digit_led k = true -> strlen (entered st) < 4 ->
   st' = {| lockState := lockState st; entered := entered st ++ k |})
  /\ (digit_led k = false -> k <> js "*" -> st' = st)
  /\ (4 <= strlen (entered st) -> k <> js "*" -> st' = st).
Proof.
  intros k st'; subst st'; rewrite handleLine_KEY; fold k.
  unfold key_effect; rewrite range_test_digit_led.
  assert (Hstar : k <> js "*" -> str_eqb k (js "*") = false).
  { intros Hk; destruct (str_eqb k (js "*")) eqn:E; [|reflexivity].
    apply str_eqb_eq in E; contradiction. }
  repeat split.
  - intros Hd Hlen.
    rewrite Hd, (proj2 (Z.ltb_lt _ _) Hlen); reflexivity.
  - intros Hd Hk; rewrite Hd, (Hstar Hk); reflexivity.
  - intros Hlen Hk.
    rewrite (proj2 (Z.ltb_ge _ _) Hlen), andb_false_r, (Hstar Hk).
    reflexivity.
Qed.

(** X3.  Typing a digit and deleting it gives the state back: "KEY:d"
    followed by "KEY:*" returns to the state before, whenever fewer than
    four units were entered. *)
Theorem key_then_star_restores (st : State) (d : N) :
  isDigit d = true ->
  strlen (entered st) < 4 ->
  handleLine upper_run (handleLine upper_run st (js "KEY:" ++ [d])) (js "KEY:*")
  = st.
Proof.
  intros Hd Hlen.
  rewrite handleLine_KEY, (trim_digit d Hd), (key_effect_digit st d Hd).
  rewrite (proj2 (Z.ltb_lt _ _) Hlen).
  change (js "KEY:*") with (js "KEY:" ++ js "*").
  rewrite handleLine_KEY.
  change (trim (js "*")) with (js "*").
  rewrite key_effect_star, strlen_zero; cbn [entered lockState].
  replace (truthy (entered st ++ [d])) with true
    by (destruct (entered st); reflexivity).
  cbn [negb]; rewrite slice_drop_last.
  destruct st; reflexivity.
Qed.
End InterpreterMore.

(** ** White space around payloads *)

Section TrimFacts.

Lemma trimStart_skips (a s : jsstr) :
  Forall (fun c => isWhiteSpace c = true) a -> trimStart (a ++ s) = trimStart s.
Proof.
  induction 1 as [|c a Hc _ IH]; simpl; [reflexivity|].
  rewrite Hc; exact IH.
Qed.

Lemma trimEnd_skips (s b : jsstr) :
  Forall (fun c => isWhiteSpace c = true) b -> trimEnd (s ++ b) = trimEnd s.
Proof.
  intros Hb; unfold trimEnd.
  rewrite rev_app_distr, trimStart_skips by (apply Forall_rev; exact Hb).
  reflexivity.
Qed.

(** [trimStart] either eats the whole string, which is then all white
    space, or stops at a unit that is none. *)
Lemma trimStart_shape (s : jsstr) :
  (trimStart s = [] /\ Forall (fun c => isWhiteSpace c = true) s)
  \/ (exists c rest, trimStart s = c :: rest /\ isWhiteSpace c = false).
Proof.
  induction s as [|c s IH]; simpl; [left; split; constructor|].
  destruct (isWhiteSpace c) eqn:Hc; [|right; eauto].
  destruct IH as [[E F]|IH]; [left; split; [exact E | constructor; assumption]|].
  right; exact IH.
Qed.

Lemma trimStart_app_kept (s b : jsstr) (c : N) (rest : jsstr) :
  trimStart s = c :: rest -> trimStart (s ++ b) = trimStart s ++ b.
Proof.
  induction s as [|x s IH]; simpl; [discriminate|].
  destruct (isWhiteSpace x); [exact IH | reflexivity].
Qed.

(** White space before and after a string does not change its [trim]. *)
Lemma trim_pad (a s b : jsstr) :
  Forall (fun c => isWhiteSpace c = true) a ->
  Forall (fun c => isWhiteSpace c = true) b ->
  trim (a ++ s ++ b) = trim s.
Proof.
  intros Ha Hb; unfold trim.
  rewrite (trimStart_skips a (s ++ b) Ha).
  destruct (trimStart_shape s) as [[E F]|(c & rest & E & _)].
  - rewrite E.
    rewrite <- (app_nil_r (s ++ b)), trimStart_skips
      by (apply Forall_app; split; assumption).
    reflexivity.
  - rewrite (trimStart_app_kept s b c rest E).
    apply trimEnd_skips, Hb.
Qed.
End TrimFacts.

Section InterpreterSequences.
Variable upper_run : jsstr -> jsstr.

(** X4.  White space between the prefix and the payload, and after the
    payload, is ignored: a "KEY:" or "STATE:" line with its payload padded
    acts as the line without the padding. *)
Theorem payload_padding_ignored (st : State) (a payload b : jsstr) :
  Forall (fun c => isWhiteSpace c = true) a ->
  Forall (fun c => isWhiteSpace c = true) b ->
  handleLine upper_run st (js "KEY:" ++ a ++ payload ++ b)
  = handleLine upper_run st (js "KEY:" ++ payload)
  /\ handleLine upper_run st (js "STATE:" ++ a ++ payload ++ b)
     = handleLine upper_run st (js "STATE:" ++ payload).
Proof.
  intros Ha Hb; split.
  - rewrite !handleLine_KEY, (trim_pad a payload b Ha Hb); reflexivity.
  - rewrite !handleLine_STATE, (trim_pad a payload b Ha Hb); reflexivity.
Qed.

Lemma forallb_firstn {A : Type} (f : A -> bool) (n : nat) (l : list A) :
  forallb f l = true -> forallb f (firstn n l) = true.
Proof.
  revert l; induction n as [|n IH]; intros [|x l]; simpl; auto.
  rewrite !andb_true_iff; intros [Hx Hl]; auto.
Qed.

Lemma forallb_skipn {A : Type} (f : A -> bool) (n : nat) (l : list A) :
  forallb f l = true -> forallb f (skipn n l) = true.
Proof.
  revert l; induction n as [|n IH]; intros [|x l]; simpl; auto.
  rewrite andb_true_iff; intros [_ Hl]; auto.
Qed.

(** One line keeps the bound and the digits, if its "KEY:" payload is one
    unit at most. *)
Lemma digits_bound_step (st : State) (line : jsstr) :
  short_key line = true ->
  strlen (entered st) <= 4 /\ forallb isDigit (entered st) = true ->
  strlen (entered (handleLine upper_run st line)) <= 4
  /\ forallb isDigit (entered (handleLine upper_run st line)) = true.
Proof.
  intros Hshort [Hlen Hdig].
  destruct (handleLine_cases upper_run st line)
    as [(p & -> & ->)|[(p & _ & _ & ->)|(_ & _ & ->)]]; [| |auto].
  - unfold short_key in Hshort.
    rewrite startsWith_app, slice_from in Hshort by lia.
    change (skipn (Z.to_nat 4) (js "KEY:" ++ p)) with p in Hshort.
    apply Z.leb_le in Hshort.
    destruct (trim p) as [|c [|c' k]].
    + split; assumption.
    + unfold key_effect; rewrite digit_test_single.
      destruct (isDigit c) eqn:Hc; simpl andb.
      * destruct (Z.ltb_spec (strlen (entered st)) 4); cbn [entered].
        -- rewrite strlen_app, forallb_app, Hdig; simpl; rewrite Hc.
           split; [unfold strlen in *; simpl; lia | reflexivity].
        -- destruct (_ && _); cbn [entered]; [|split; assumption].
           split; [pose proof (strlen_slice_le (entered st) 0 (Some (-1))); lia|].
           apply forallb_firstn, forallb_skipn, Hdig.
      * destruct (_ && _); cbn [entered]; [|split; assumption].
        split; [pose proof (strlen_slice_le (entered st) 0 (Some (-1))); lia|].
        apply forallb_firstn, forallb_skipn, Hdig.
    + unfold strlen in Hshort; simpl in Hshort; lia.
  - destruct (state_effect_entered st (toUpperCase upper_run (trim p)))
      as [E|E]; rewrite E; split; auto; discriminate.
Qed.

(** X5.  As long as every "KEY:" line carries one code unit at most, at
    most four units are entered and all of them are decimal digits, in
    every state reached from the initial one. *)
Theorem short_keys_keep_four_digits (lines : list jsstr) :
  forallb short_key lines = true ->
  let st := handleLines upper_run initial lines in
  strlen (entered st) <= 4 /\ forallb isDigit (entered st) = true.
Proof.
  intros Hlines; unfold handleLines.
  assert (Hinit : strlen (entered initial) <= 4
                  /\ forallb isDigit (entered initial) = true)
    by (split; [discriminate | reflexivity]).
  revert Hlines Hinit; generalize initial as st.
  induction lines as [|line lines IH]; intros st Hlines Hst; [exact Hst|].
  simpl in Hlines; apply andb_true_iff in Hlines as [Hline Hlines].
  apply (IH _ Hlines), (digits_bound_step st line Hline Hst).
Qed.

Lemma handleLine_lockState_cong (st1 st2 : State) (line : jsstr) :
  lockState st1 = lockState st2 ->
  lockState (handleLine upper_run st1 line)
  = lockState (handleLine upper_run st2 line).
Proof.
  intros E.
  destruct (handleLine_cases upper_run st1 line)
    as [(p & -> & H1)|[(p & -> & _ & H1)|(HK & HS & H1)]].
  - rewrite H1, handleLine_KEY, !key_effect_lockState; exact E.
  - rewrite H1, handleLine_STATE; unfold state_effect.
    repeat (destruct (str_eqb _ _); [reflexivity|]); exact E.
  - rewrite H1, (handleLine_other upper_run st2 line HK HS); exact E.
Qed.

Lemma other_line_keeps_lockState (st : State) (line : jsstr) :
  startsWith line (js "STATE:") = false ->
  lockState (handleLine upper_run st line) = lockState st.
Proof.
  intros HS.
  destruct (handleLine_cases upper_run st line)
    as [(p & -> & H1)|[(p & -> & _ & H1)|(_ & _ & H1)]].
  - rewrite H1; apply key_effect_lockState.
  - rewrite startsWith_app in HS; discriminate.
  - rewrite H1; reflexivity.
Qed.

(** X6.  The lock state depends on the "STATE:" lines alone: all other lines
    can be taken out of any sequence without changing [lockState] at its
    end. *)
Theorem lockState_from_state_lines (st : State) (lines : list jsstr) :
  lockState (handleLines upper_run st lines)
  = lockState (handleLines upper_run st
                 (filter (fun l => startsWith l (js "STATE:")) lines)).
Proof.
  unfold handleLines.
  assert (G : forall st1 st2, lockState st1 = lockState st2 ->
              lockState (fold_left (handleLine upper_run) lines st1)
              = lockState (fold_left (handleLine upper_run)
                             (filter (fun l => startsWith l (js "STATE:")) lines)
                             st2)).
  { induction lines as [|line lines IH]; intros st1 st2 E; [exact E|].
    cbn [filter fold_left].
    destruct (startsWith line (js "STATE:")) eqn:HS; cbn [fold_left].
    - apply IH, handleLine_lockState_cong, E.
    - apply IH. rewrite other_line_keeps_lockState by exact HS. exact E. }
  apply G; reflexivity.
Qed.
End InterpreterSequences.

(** ** Further properties of the read loop *)

Section TrimShape.

Lemma trimStart_suffix (s : jsstr) : exists a, s = a ++ trimStart s.
Proof.
  induction s as [|c s [a IH]]; simpl; [exists []; reflexivity|].
  destruct (isWhiteSpace c); [|exists []; reflexivity].
  exists (c :: a); simpl; f_equal; exact IH.
Qed.

Lemma trimEnd_prefix (s : jsstr) : exists b, s = trimEnd s ++ b.
Proof.
  unfold trimEnd.
  destruct (trimStart_suffix (rev s)) as [a E].
  exists (rev a).
  rewrite <- rev_app_distr, <- E; symmetry; apply rev_involutive.
Qed.

Lemma trim_In (s : jsstr) (c : N) : In c (trim s) -> In c s.
Proof.
  unfold trim; intros H.
  destruct (trimEnd_prefix (trimStart s)) as [b Eb].
  destruct (trimStart_suffix s) as [a Ea].
  rewrite Ea, Eb; apply in_or_app; right; apply in_or_app; left; exact H.
Qed.

Lemma trim_head (s : jsstr) (c : N) (rest : jsstr) :
  trim s = c :: rest -> isWhiteSpace c = false.
Proof.
  unfold trim; intros H.
  destruct (trimEnd_prefix (trimStart s)) as [b Eb].
  rewrite H in Eb.
  destruct (trimStart_shape s) as [[E _]|(c' & rest' & E & Hc')];
    rewrite E in Eb; [discriminate|].
  injection Eb as -> _; exact Hc'.
Qed.

Lemma trim_last (s : jsstr) (c : N) (front : jsstr) :
  trim s = front ++ [c] -> isWhiteSpace c = false.
Proof.
  unfold trim, trimEnd; intros H.
  apply (f_equal (@rev N)) in H.
  rewrite rev_involutive, rev_app_distr in H; simpl in H.
  destruct (trimStart_shape (rev (trimStart s)))
    as [[E _]|(c' & rest' & E & Hc')]; rewrite E in H; [discriminate|].
  injection H as -> _; exact Hc'.
Qed.

(** What [trim] leaves, when it leaves anything, of a string free of LF is a
    clean line. *)
Lemma trim_clean (s : jsstr) :
  ~ In 10%N s -> truthy (trim s) = true -> clean_line (trim s) = true.
Proof.
  intros Hnl Ht; unfold clean_line; rewrite Ht; simpl.
  assert (E1 : existsb (N.eqb 10) (trim s) = false).
  { destruct (existsb _ _) eqn:E; [|reflexivity].
    apply existsb_exists in E as (x & Hx & Ex).
    apply N.eqb_eq in Ex; subst x.
    exfalso; apply Hnl, trim_In, Hx. }
  rewrite E1; simpl.
  destruct (trim s) as [|c rest] eqn:E; [discriminate|].
  cbn [hd]; rewrite (trim_head s c rest E); cbn [negb andb].
  assert (Hne : c :: rest <> []) by discriminate.
  destruct (exists_last Hne) as (front & c' & E').
  rewrite E', last_last.
  rewrite E' in E; rewrite (trim_last s c' front E); reflexivity.
Qed.

(** A clean line is its own [trim], also with the CR of [println] after
    it. *)
Lemma clean_trim (l : jsstr) (cr : bool) :
  clean_line l = true -> trim (l ++ (if cr then [13%N] else [])) = l.
Proof.
  unfold clean_line; rewrite !andb_true_iff, !negb_true_iff.
  intros [[[Ht _] Hh] Hl].
  rewrite <- (app_nil_l (l ++ _)), trim_pad
    by (destruct cr; repeat constructor).
  destruct l as [|c rest]; [discriminate|].
  unfold trim; simpl hd in Hh; simpl trimStart; rewrite Hh.
  unfold trimEnd.
  assert (Hne : c :: rest <> []) by discriminate.
  destruct (exists_last Hne) as (front & c' & E).
  rewrite E in *; rewrite last_last in Hl.
  rewrite rev_app_distr; simpl; rewrite Hl.
  change (c' :: rev front) with (rev [c'] ++ rev front).
  rewrite <- rev_app_distr; apply rev_involutive.
Qed.

Lemma clean_no_newline (l : jsstr) : clean_line l = true -> ~ In 10%N l.
Proof.
  unfold clean_line; rewrite !andb_true_iff, !negb_true_iff.
  intros [[[_ He] _] _] Hin.
  assert (existsb (N.eqb 10) l = true)
    by (apply existsb_exists; exists 10%N; split; [exact Hin | reflexivity]).
  congruence.
Qed.
End TrimShape.

Section ReadLoopMore.

Lemma fold_record_line (lines seen : list jsstr) :
  fold_left record_line lines seen = seen ++ lines.
Proof.
  revert seen; induction lines as [|l lines IH]; intros seen; simpl.
  - symmetry; apply app_nil_r.
  - rewrite IH; unfold record_line; rewrite <- app_assoc; reflexivity.
Qed.

(** X7.  Where the stream is cut into chunks does not matter: two chunk
    sequences with the same concatenation leave the same buffer and the
    same state, whatever the handler. *)
Theorem read_loop_chunking {St : Type} (handle : St -> jsstr -> St)
    (chunks1 chunks2 : list jsstr) (st : St) :
  concat chunks1 = concat chunks2 ->
  readLoop handle chunks1 [] st = readLoop handle chunks2 [] st.
Proof.
  intros E.
  rewrite (readLoop_from handle chunks1 [] st eq_refl).
  rewrite (readLoop_from handle chunks2 [] st eq_refl).
  simpl app; rewrite E; reflexivity.
Qed.

(** X8.  The read loop ends, and every line it has passed on is clean: not
    empty, free of LF, and with no white space at either end.  The buffer
    it is left with holds no LF. *)
Theorem read_loop_passes_clean_lines (chunks : list jsstr) :
  match readLoop record_line chunks [] [] with
  | Some (buf, lines) =>
      forallb clean_line lines = true /\ ~ In 10%N buf
  | None => False
  end.
Proof.
  rewrite (readLoop_from record_line chunks [] [] eq_refl).
  rewrite fold_record_line; simpl app.
  destruct (segments_join (concat chunks)) as (_ & Hsegs & Hrest).
  split; [|exact Hrest].
  apply forallb_forall; intros l Hl.
  unfold forwarded in Hl.
  apply filter_In in Hl as [Hl Ht].
  apply in_map_iff in Hl as (seg & <- & Hseg).
  apply trim_clean; [|exact Ht].
  rewrite Forall_forall in Hsegs; exact (Hsegs seg Hseg).
Qed.

Lemma segments_line (s rest : jsstr) :
  ~ In 10%N s ->
  segments (s ++ 10%N :: rest)
  = (s :: fst (segments rest), snd (segments rest)).
Proof.
  induction s as [|c s IH]; intros Hs; simpl.
  - destruct (segments rest); reflexivity.
  - rewrite IH by (intros H; apply Hs; right; exact H).
    destruct (N.eqb_spec c 10) as [->|_]; [|reflexivity].
    exfalso; apply Hs; left; reflexivity.
Qed.

(** Clean lines put on the wire come apart as they went in. *)
Lemma segments_on_wire (records : list (jsstr * bool)) :
  forallb clean_line (map fst records) = true ->
  forwarded (flat_map on_wire records) = map fst records
  /\ unfinished (flat_map on_wire records) = [].
Proof.
  unfold forwarded, unfinished.
  induction records as [|[l cr] records IH]; intros H; simpl in H |- *;
    [split; reflexivity|].
  apply andb_true_iff in H as [Hl H].
  destruct (IH H) as [IH1 IH2].
  rewrite <- !app_assoc.
  change (newline ++ flat_map on_wire records)
    with (10%N :: flat_map on_wire records).
  rewrite app_assoc, segments_line.
  - simpl; rewrite (clean_trim l cr Hl), IH1, IH2.
    replace (truthy l) with true; [split; reflexivity|].
    unfold clean_line in Hl; destruct (truthy l); [reflexivity | discriminate].
  - intros Hin; apply in_app_or in Hin as [Hin|Hin].
    + exact (clean_no_newline l Hl Hin).
    + destruct cr; simpl in Hin; [destruct Hin as [?|[]]; discriminate | exact Hin].
Qed.

(** X9.  Clean lines, each sent with LF or CR LF after it, arrive as they
    were sent: however the stream is cut into chunks, the handler is given
    exactly those lines, in order, and the buffer ends empty. *)
Theorem wire_round_trip {St : Type} (handle : St -> jsstr -> St)
    (records : list (jsstr * bool)) (chunks : list jsstr) (st : St) :
  forallb clean_line (map fst records) = true ->
  concat chunks = flat_map on_wire records ->
  readLoop handle chunks [] st
  = Some ([], fold_left handle (map fst records) st).
Proof.
  intros Hclean Hchunks.
  rewrite (readLoop_from handle chunks [] st eq_refl); simpl app.
  rewrite Hchunks.
  destruct (segments_on_wire records Hclean) as [-> ->]; reflexivity.
Qed.
End ReadLoopMore.

(** ** The renderer *)

Section Renderer.


Lemma concat_repeat_unit (c : N) (n : nat) :
  concat (repeat [c] n) = repeat c n.
Proof.
  induction n as [|n IH]; simpl; [reflexivity | rewrite IH; reflexivity].
Qed.

(** X10.  The dots under the lock: one bullet for each entered unit, then
    spaces up to four places; beyond four units there are only bullets.
    The text shows how much is entered and nothing of what, and its making
    never raises. *)
Theorem dots_show_count (entered : jsstr) :
  let dots := repeat 8226%N (length entered)
              ++ repeat 32%N (4 - length entered) in
  dotsText entered = Some dots
  /\ strlen dots = Z.max (strlen entered) 4.
Proof.
  intros dots; subst dots; split.
  - unfold dotsText, str_repeat, bullet.
    destruct (Z.ltb_spec (strlen entered) 0) as [H|_];
      [pose proof (strlen_nonneg entered); lia|].
    unfold strlen at 1; rewrite Nat2Z.id, concat_repeat_unit.
    unfold padEnd, strlen; rewrite repeat_length.
    destruct (Z.leb_spec 4 (Z.of_nat (length entered))) as [H|H].
    + replace (4 - length entered)%nat with 0%nat by lia.
      rewrite app_nil_r; reflexivity.
    + cbn [truthy js map list_ascii_of_string].
      change [N_of_ascii " "] with [32%N].
      rewrite concat_repeat_unit.
      replace (Z.to_nat (4 - Z.of_nat (length entered)))
        with (4 - length entered)%nat by lia.
      rewrite firstn_all2 by (rewrite repeat_length; lia).
      reflexivity.
  - unfold strlen; rewrite length_app, !repeat_length; lia.
Qed.



End Renderer.

(** ** A full buffer *)

Section FullBuffer.
Variable upper_run : jsstr -> jsstr.

(** X13.  Once four units or more are entered, no line makes [entered]
    longer, whatever its payload: it can only be kept, shortened by a delete
    or emptied. *)
Theorem full_buffer_never_grows (st : State) (line : jsstr) :
  4 <= strlen (entered st) ->
  strlen (entered (handleLine upper_run st line)) <= strlen (entered st).
Proof.
  intros Hfull.
  destruct (handleLine_cases upper_run st line)
    as [(p & _ & ->)|[(p & _ & _ & ->)|(_ & _ & ->)]]; [| |lia].
  - unfold key_effect.
    rewrite (proj2 (Z.ltb_ge _ _) Hfull), andb_false_r.
    destruct (_ && _); cbn [entered]; [apply strlen_slice_le | lia].
  - destruct (state_effect_entered st (toUpperCase upper_run (trim p)))
      as [E|E]; rewrite E; [|lia].
    pose proof (strlen_nonneg (entered st)); unfold strlen at 1; simpl; lia.
Qed.
End FullBuffer.

(** ** The further properties at concrete inputs *)

(** After "STATE:idle". *)
Lemma lockState_one_of_three_witness :
  let st := handleLine upper_sample initial (js "STATE:idle") in
  reachable upper_sample st
  /\ In (lockState st) [js "LOCKED"; js "UNLOCKED"; js "WRONG"].
Proof.
  intros st.
  assert (R : reachable upper_sample st) by apply reach_line, reach_initial.
  split; [exact R|].
  apply (lockState_one_of_three upper_sample st R).
Defined.

(** "KEY: 1A" on the initial state, "KEY:#", and "KEY:7" on a full
    buffer. *)
Lemma key_line_effect_witness :
  let full := {| lockState := js "LOCKED"; entered := js "1234" |} in
  (digit_led (trim (js " 1A")) = true
   /\ strlen (entered initial) < 4
   /\ handleLine upper_sample initial (js "KEY: 1A")
      = {| lockState := js "LOCKED"; entered := js "1A" |})
  /\ (digit_led (trim (js "#")) = false
      /\ trim (js "#") <> js "*"
      /\ handleLine upper_sample initial (js "KEY:#") = initial)
  /\ (4 <= strlen (entered full)
      /\ trim (js "7") <> js "*"
      /\ handleLine upper_sample full (js "KEY:7") = full).
Proof.
  intros full.
  assert (H1 : digit_led (trim (js " 1A")) = true) by reflexivity.
  assert (H2 : strlen (entered initial) < 4) by reflexivity.
  assert (H3 : digit_led (trim (js "#")) = false) by reflexivity.
  assert (H4 : trim (js "#") <> js "*") by discriminate.
  assert (H5 : 4 <= strlen (entered full)) by discriminate.
  assert (H6 : trim (js "7") <> js "*") by discriminate.
  split; [|split].
  - split; [exact H1|]. split; [exact H2|].
    exact (proj1 (key_line_effect upper_sample initial (js " 1A")) H1 H2).
  - split; [exact H3|]. split; [exact H4|].
    exact (proj1 (proj2 (key_line_effect upper_sample initial (js "#"))) H3 H4).
  - split; [exact H5|]. split; [exact H6|].
    exact (proj2 (proj2 (key_line_effect upper_sample full (js "7"))) H5 H6).
Defined.

(** "KEY:7" then "KEY:*" with "12" entered. *)
Lemma key_then_star_restores_witness :
  let st := {| lockState := js "WRONG"; entered := js "12" |} in
  isDigit 55 = true
  /\ strlen (entered st) < 4
  /\ handleLine upper_sample (handleLine upper_sample st (js "KEY:7"))
       (js "KEY:*") = st.
Proof.
  intros st.
  split; [reflexivity|]. split; [reflexivity|].
  apply (key_then_star_restores upper_sample st 55%N); reflexivity.
Defined.

(** "KEY:  5" followed by CR. *)
Lemma payload_padding_ignored_witness :
  Forall (fun c => isWhiteSpace c = true) (js "  ")
  /\ Forall (fun c => isWhiteSpace c = true) [13%N]
  /\ handleLine upper_sample initial (js "KEY:" ++ js "  " ++ js "5" ++ [13%N])
     = handleLine upper_sample initial (js "KEY:5").
Proof.
  assert (Ha : Forall (fun c => isWhiteSpace c = true) (js "  "))
    by (repeat constructor).
  assert (Hb : Forall (fun c => isWhiteSpace c = true) [13%N])
    by (repeat constructor).
  split; [exact Ha|]. split; [exact Hb|].
  exact (proj1 (payload_padding_ignored upper_sample initial
                  (js "  ") (js "5") [13%N] Ha Hb)).
Defined.

(** Six digits, a delete and a letter, one unit each. *)
Lemma short_keys_keep_four_digits_witness :
  let lines := [js "KEY:1"; js "KEY:2"; js "KEY:*"; js "KEY:3"; js "KEY:4";
                js "KEY:5"; js "KEY:6"; js "KEY:A"; js "STATE:IDLE"] in
  forallb short_key lines = true
  /\ strlen (entered (handleLines upper_sample initial lines)) <= 4
  /\ forallb isDigit (entered (handleLines upper_sample initial lines)) = true.
Proof.
  intros lines.
  assert (H : forallb short_key lines = true) by reflexivity.
  split; [exact H|].
  exact (short_keys_keep_four_digits upper_sample lines H).
Defined.

(** Two lines in one chunk, and cut in the middle of the second. *)
Lemma read_loop_chunking_witness :
  let whole := [js "KEY:1" ++ newline ++ js "KEY:2" ++ newline] in
  let cut := [js "KEY:1" ++ newline ++ js "KE"; js "Y:2" ++ newline] in
  concat cut = concat whole
  /\ readLoop (handleLine upper_sample) cut [] initial
     = readLoop (handleLine upper_sample) whole [] initial.
Proof.
  intros whole cut.
  assert (H : concat cut = concat whole) by reflexivity.
  split; [exact H|].
  exact (read_loop_chunking (handleLine upper_sample) cut whole initial H).
Defined.

(** "KEY:1" sent with CR LF and "STATE:WRONG" with LF, in three chunks. *)
Lemma wire_round_trip_witness :
  let records := [(js "KEY:1", true); (js "STATE:WRONG", false)] in
  let chunks := [js "KEY:1" ++ [13%N]; newline ++ js "STATE:WR";
                 js "ONG" ++ newline] in
  forallb clean_line (map fst records) = true
  /\ concat chunks = flat_map on_wire records
  /\ readLoop record_line chunks [] []
     = Some ([], [js "KEY:1"; js "STATE:WRONG"]).
Proof.
  intros records chunks.
  assert (H1 : forallb clean_line (map fst records) = true) by reflexivity.
  assert (H2 : concat chunks = flat_map on_wire records) by reflexivity.
  split; [exact H1|]. split; [exact H2|].
  exact (wire_round_trip record_line records chunks [] H1 H2).
Defined.


(** "KEY:11" with "12345" entered. *)
Lemma full_buffer_never_grows_witness :
  let st := {| lockState := js "LOCKED"; entered := js "12345" |} in
  4 <= strlen (entered st)
  /\ strlen (entered (handleLine upper_sample st (js "KEY:11")))
     <= strlen (entered st).
Proof.
  intros st.
  assert (H : 4 <= strlen (entered st)) by discriminate.
  split; [exact H|].
  exact (full_buffer_never_grows upper_sample st (js "KEY:11") H).
Defined.
